(** * App.tsx: coin market table — data fetching, query state and cell rendering

    A shallow embedding of [src/App.tsx].  The JavaScript run-time values the
    component handles (numbers printed with [Number::toString], strings
    upper-cased by a case mapping that is exact on ASCII text and a parameter
    beyond it, thrown errors) are modelled in [Module JS];
    the component's own definitions keep the names they have in the source. *)

From Stdlib Require Import ZArith Ascii String DecimalString.
From stdpp Require Import base option list gmap strings.

(** ** JavaScript values *)

Module JS.

(** A thrown value.  [TypeError] is what the engine raises for a property
    access on [null]/[undefined] or a call of something that is no function;
    [AxiosError] is what [axios.get] rejects with ([status = None]: the
    request never got a response). *)
Inductive error :=
| TypeError (msg : string)
| AxiosError (status : option nat).

(** Outcome of evaluating an expression: a value, or an abrupt completion. *)
Inductive completion (A : Type) :=
| Normal (a : A)
| Throw (e : error).
Arguments Normal {A} a.
Arguments Throw {A} e.

Definition bind {A B} (c : completion A) (k : A → completion B) : completion B :=
  match c with
  | Normal a => k a
  | Throw e => Throw e
  end.

Definition is_normal {A} (c : completion A) : bool :=
  match c with Normal _ => true | Throw _ => false end.

(** Sequencing a list of computations, left to right, stopping at the first
    throw (what [Array.prototype.map] does with a throwing callback). *)
Fixpoint mapM {A B} (f : A → completion B) (l : list A) : completion (list B) :=
  match l with
  | [] => Normal []
  | a :: r => bind (f a) (λ b, bind (mapM f r) (λ bs, Normal (b :: bs)))
  end.

(** A Number value.  A finite non-zero double is given by the decomposition
    ECMA-262 prints it from: sign, and integers [s], [n] with
    [value = s × 10^(n-k)] where [k] is the number of decimal digits of [s]
    and [s] has no trailing zero ([k] as small as possible). *)
Inductive number :=
| NaN
| Infinity (neg : bool)
| Zero (neg : bool)
| Finite (neg : bool) (s : positive) (n : Z).

Definition canonical (x : number) : bool :=
  match x with
  | Finite _ s _ => negb (Z.pos s mod 10 =? 0)%Z
  | _ => true
  end.

Definition digits (s : positive) : string :=
  NilEmpty.string_of_uint (Pos.to_uint s).

Fixpoint zeros (n : nat) : string :=
  match n with
  | O => EmptyString
  | S m => String "0" (zeros m)
  end.

Definition decimal_of_Z (z : Z) : string :=
  NilZero.string_of_uint (N.to_uint (Z.to_N z)).

(** [Number::toString(x)] in radix 10 (ECMA-262, 6.1.6.1.20). *)
Definition Number_toString (x : number) : string :=
  match x with
  | NaN => "NaN"
  | Zero _ => "0"
  | Infinity neg => (if neg then "-" else "") +:+ "Infinity"
  | Finite neg s n =>
      let d := digits s in
      let k := Z.of_nat (String.length d) in
      (if neg then "-" else "") +:+
      (if ((-5 <=? n) && (n <=? 21))%Z then
         if (k <=? n)%Z then d +:+ zeros (Z.to_nat (n - k))
         else if (0 <? n)%Z then
           String.substring 0 (Z.to_nat n) d +:+ "." +:+
           String.substring (Z.to_nat n) (Z.to_nat (k - n)) d
         else "0." +:+ zeros (Z.to_nat (- n)) +:+ d
       else
         let e := (n - 1)%Z in
         let exponent := (if (e <? 0)%Z then "-" else "+") +:+ decimal_of_Z (Z.abs e) in
         if (k =? 1)%Z then d +:+ "e" +:+ exponent
         else String.substring 0 1 d +:+ "." +:+
              String.substring 1 (Z.to_nat (k - 1)) d +:+ "e" +:+ exponent)
  end.

(** The Number value of an integer literal such as [1] or [10]. *)
Fixpoint strip_zeros (fuel : nat) (s : positive) : positive :=
  match fuel with
  | O => s
  | S f => if (Z.pos s mod 10 =? 0)%Z
           then match (Z.pos s / 10)%Z with Z.pos q => strip_zeros f q | _ => s end
           else s
  end.

Definition of_Z (z : Z) : number :=
  match z with
  | Z0 => Zero false
  | Z.pos p =>
      let k := String.length (digits p) in Finite false (strip_zeros k p) (Z.of_nat k)
  | Z.neg p =>
      let k := String.length (digits p) in Finite true (strip_zeros k p) (Z.of_nat k)
  end.

(** Upper-casing of ASCII text: the Latin letters [a]..[z] go to [A]..[Z],
    every other unit is kept.  This is what [String.prototype.toUpperCase]
    does on text whose units are all below 128 (such as the text of a
    number); on other text the method applies the Unicode case mapping, see
    [case_mapping] below. *)
Definition is_lower (c : ascii) : bool :=
  let n := N_of_ascii c in ((97 <=? n) && (n <=? 122))%N.

Definition is_upper (c : ascii) : bool :=
  let n := N_of_ascii c in ((65 <=? n) && (n <=? 90))%N.

Definition upper_ascii (c : ascii) : ascii :=
  if is_lower c then ascii_of_N (N_of_ascii c - 32) else c.

Fixpoint toUpperCase (s : string) : string :=
  match s with
  | EmptyString => EmptyString
  | String c r => String (upper_ascii c) (toUpperCase r)
  end.

(** The values a field of a JSON record, a hook parameter or a piece of
    component state can hold in this program. *)
Inductive val :=
| VUndefined
| VNull
| VBool (b : bool)
| VNum (x : number)
| VStr (s : string).

Definition is_nullish (v : val) : bool :=
  match v with VUndefined | VNull => true | _ => false end.

(** [ToString(v)], the conversion a template literal applies to each
    substitution. *)
Definition ToString (v : val) : string :=
  match v with
  | VUndefined => "undefined"
  | VNull => "null"
  | VBool b => if b then "true" else "false"
  | VNum x => Number_toString x
  | VStr s => s
  end.

(** The method call [v.toString()]. *)
Definition call_toString (v : val) : completion val :=
  match v with
  | VUndefined => Throw (TypeError "Cannot read properties of undefined (reading 'toString')")
  | VNull => Throw (TypeError "Cannot read properties of null (reading 'toString')")
  | _ => Normal (VStr (ToString v))
  end.

(** Text all of whose units are ASCII. *)
Fixpoint ascii_only (s : string) : bool :=
  match s with
  | EmptyString => true
  | String c r => (N_of_ascii c <? 128)%N && ascii_only r
  end.

(** [String.prototype.toUpperCase] applies the Unicode case mapping, whose
    table is not part of the program: the method is a parameter [U] of
    everything that calls it.  What is known of it is what it does on ASCII
    text. *)
Definition case_mapping (U : string → string) : Prop :=
  ∀ s, ascii_only s = true → U s = toUpperCase s.

(** The method call [v.toUpperCase()]: only strings have the method. *)
Definition call_toUpperCase (U : string → string) (v : val) : completion val :=
  match v with
  | VUndefined => Throw (TypeError "Cannot read properties of undefined (reading 'toUpperCase')")
  | VNull => Throw (TypeError "Cannot read properties of null (reading 'toUpperCase')")
  | VStr s => Normal (VStr (U s))
  | _ => Throw (TypeError "toUpperCase is not a function")
  end.

End JS.

Import JS.

(** ** Data model (App.tsx:13-66) *)

(** [interface Coin].  The records come straight from the response body, so
    apart from the three identifying strings every field is whatever JSON
    value the server sent. *)
Record Coin := {
  id : string;
  symbol : string;
  name : string;
  image : val;
  current_price : val;
  market_cap : val;
  market_cap_rank : val;
  fully_diluted_valuation : val;
  total_volume : val;
  high_24h : val;
  low_24h : val;
  price_change_24h : val;
  price_change_percentage_24h : val;
  market_cap_change_24h : val;
  market_cap_change_percentage_24h : val;
  circulating_supply : val;
  total_supply : val;
  max_supply : val;
  ath : val;
  ath_change_percentage : val;
  ath_date : val;
  atl : val;
  atl_change_percentage : val;
  atl_date : val;
  roi : val;
  last_updated : val
}.

(** Property access [record[dataIndex]]. *)
Definition get_field (dataIndex : string) (record : Coin) : val :=
  if String.eqb dataIndex "id" then VStr (id record)
  else if String.eqb dataIndex "symbol" then VStr (symbol record)
  else if String.eqb dataIndex "name" then VStr (name record)
  else if String.eqb dataIndex "image" then image record
  else if String.eqb dataIndex "current_price" then current_price record
  else if String.eqb dataIndex "market_cap" then market_cap record
  else if String.eqb dataIndex "market_cap_rank" then market_cap_rank record
  else if String.eqb dataIndex "fully_diluted_valuation" then fully_diluted_valuation record
  else if String.eqb dataIndex "total_volume" then total_volume record
  else if String.eqb dataIndex "high_24h" then high_24h record
  else if String.eqb dataIndex "low_24h" then low_24h record
  else if String.eqb dataIndex "price_change_24h" then price_change_24h record
  else if String.eqb dataIndex "price_change_percentage_24h" then price_change_percentage_24h record
  else if String.eqb dataIndex "market_cap_change_24h" then market_cap_change_24h record
  else if String.eqb dataIndex "market_cap_change_percentage_24h"
       then market_cap_change_percentage_24h record
  else if String.eqb dataIndex "circulating_supply" then circulating_supply record
  else if String.eqb dataIndex "total_supply" then total_supply record
  else if String.eqb dataIndex "max_supply" then max_supply record
  else if String.eqb dataIndex "ath" then ath record
  else if String.eqb dataIndex "ath_change_percentage" then ath_change_percentage record
  else if String.eqb dataIndex "ath_date" then ath_date record
  else if String.eqb dataIndex "atl" then atl record
  else if String.eqb dataIndex "atl_change_percentage" then atl_change_percentage record
  else if String.eqb dataIndex "atl_date" then atl_date record
  else if String.eqb dataIndex "roi" then roi record
  else if String.eqb dataIndex "last_updated" then last_updated record
  else VUndefined.

(** The fields the interface itself declares as [| null] (or [null]). *)
Definition declared_nullable : list string :=
  ["market_cap_rank"; "fully_diluted_valuation"; "total_supply"; "max_supply"; "roi"].

Inductive Currency := usd | eur.
Inductive CurrencyLabel := USD | EUR.
Inductive Order := market_cap_desc | market_cap_asc.
Inductive OrderLabel := Market_cap_descending | Market_cap_ascending.

(** The string each literal type stands for at run time. *)
Definition Currency_str (c : Currency) : string :=
  match c with usd => "usd" | eur => "eur" end.
Definition Order_str (o : Order) : string :=
  match o with market_cap_desc => "market_cap_desc" | market_cap_asc => "market_cap_asc" end.

(** [interface CurrencyOption] and [interface OrderOption]. *)
Record SelectOption (V L : Type) := { value : V; label : L }.
Arguments value {V L} _.
Arguments label {V L} _.
Definition CurrencyOption := SelectOption Currency CurrencyLabel.
Definition OrderOption := SelectOption Order OrderLabel.

Definition PAGINATION_TOTAL : number := of_Z 10000.
Definition PAGE_SIZE_OPTIONS : list number := [of_Z 5; of_Z 10; of_Z 20; of_Z 50; of_Z 100].
Definition CURRENCY_OPTIONS : list CurrencyOption :=
  [ {| value := usd; label := USD |}; {| value := eur; label := EUR |} ].
Definition ORDER_OPTIONS : list OrderOption :=
  [ {| value := market_cap_desc; label := Market_cap_descending |};
    {| value := market_cap_asc; label := Market_cap_ascending |} ].

(** ** The fetcher (App.tsx:68-76) *)

(** What [axios.get] resolves with. *)
Record AxiosResponse := { status : nat; data : list Coin }.

(** What the network does with a request: it answers with a status and a
    body, or the request fails without an answer. *)
Inductive Outcome :=
| Answered (response : AxiosResponse)
| NetworkError.

(** Settlement of the promise [axios.get(url)]: with axios's default
    [validateStatus] only a 2xx answer resolves, everything else rejects. *)
Definition axios_get (o : Outcome) : completion AxiosResponse :=
  match o with
  | Answered response =>
      if (200 <=? status response) && (status response <? 300)
      then Normal response
      else Throw (AxiosError (Some (status response)))
  | NetworkError => Throw (AxiosError None)
  end.

(** A notification of react-hot-toast. *)
Inductive ToastType := toast_success | toast_error_type | toast_blank.
Record Toast := { toast_type : ToastType; message : string; position : string }.

(** Code that runs after the [await]: it may emit toasts and may throw. *)
Definition Eff (A : Type) : Type := list Toast → completion A * list Toast.

Definition ret {A} (a : A) : Eff A := λ toasts, (Normal a, toasts).
Definition throw {A} (e : error) : Eff A := λ toasts, (Throw e, toasts).
Definition lift {A} (c : completion A) : Eff A := λ toasts, (c, toasts).
Definition seq {A B} (m : Eff A) (k : A → Eff B) : Eff B :=
  λ toasts, match m toasts with
            | (Normal a, toasts') => k a toasts'
            | (Throw e, toasts') => (Throw e, toasts')
            end.
Definition try_catch {A} (body : Eff A) (handler : error → Eff A) : Eff A :=
  λ toasts, match body toasts with
            | (Normal a, toasts') => (Normal a, toasts')
            | (Throw e, toasts') => handler e toasts'
            end.

(** [toast.error(message, { position })]. *)
Definition toast_error (msg pos : string) : Eff unit :=
  λ toasts, (Normal tt,
             toasts ++ [ {| toast_type := toast_error_type; message := msg; position := pos |} ]).

(** An [async] function suspended at its single [await]: the request it has
    sent, and what it does once that request settles. *)
Record Suspended (A : Type) := { request : string; resume : Outcome → Eff A }.
Arguments request {A} _.
Arguments resume {A} _.

Definition fetcher (url : string) : Suspended (list Coin) :=
  {| request := url;
     resume := λ o,
       try_catch
         (seq (lift (axios_get o)) (λ response, ret (data response)))
         (λ error, seq (toast_error "Error fetching data" "bottom-left")
                       (λ _, throw error)) |}.

(** ** The hook's own code (App.tsx:78-101) *)

(** A template literal: the quasis interleaved with [ToString] of the
    substitutions. *)
Fixpoint template (quasis : list string) (substitutions : list val) : string :=
  match quasis, substitutions with
  | q :: quasis', v :: substitutions' => q +:+ ToString v +:+ template quasis' substitutions'
  | q :: _, [] => q
  | [], _ => ""
  end.

Module GetCoinsHookParams.
Record t := {
  currency : Currency;
  order : Order;
  perPage : number;
  page : number;
  sparkline : option bool;
  enabled : option bool
}.
End GetCoinsHookParams.

(** A destructuring default: [x = d] takes [d] when the property is
    missing. *)
Definition or_default {A} (d : A) (o : option A) : A :=
  match o with Some a => a | None => d end.

Definition baseUrl : string := "https://api.coingecko.com/api/v3/coins/markets".

Definition apiUrl (currency : Currency) (order : Order) (perPage page : number)
    (sparkline : bool) : string :=
  template [""; "?vs_currency="; "&order="; "&per_page="; "&page="; "&sparkline="; ""]
           [VStr baseUrl; VStr (Currency_str currency); VStr (Order_str order);
            VNum perPage; VNum page; VBool sparkline].

(** The first argument of [useSWR]: [enabled ? apiUrl : null]. *)
Definition swr_key (p : GetCoinsHookParams.t) : option string :=
  let enabled := or_default true (GetCoinsHookParams.enabled p) in
  let sparkline := or_default false (GetCoinsHookParams.sparkline p) in
  if enabled
  then Some (apiUrl (GetCoinsHookParams.currency p) (GetCoinsHookParams.order p)
                    (GetCoinsHookParams.perPage p) (GetCoinsHookParams.page p) sparkline)
  else None.

(** The options object passed to [useSWR]. *)
Record SWRConfiguration := {
  revalidateOnFocus : bool;
  keepPreviousData : bool;
  errorRetryCount : nat
}.

Definition swr_options : SWRConfiguration :=
  {| revalidateOnFocus := false; keepPreviousData := true; errorRetryCount := 3 |}.

(** [const coins: Coin[] = data ? data : []], with [data] either
    [undefined] or the array a response carried (an array is truthy, also
    when it is empty). *)
Definition coins_of (data : option (list Coin)) : list Coin :=
  match data with
  | Some d => d
  | None => []
  end.

(** ** Query state and its mutators (App.tsx:104-107, 154-157) *)

Record AppState := {
  page : number;
  pageSize : number;
  currency : Currency;
  order : Order
}.

(** [OPTIONS[0].value]: reading [value] off a missing element throws. *)
Definition first_value {V L} (options : list (SelectOption V L)) : completion V :=
  match options with
  | o :: _ => Normal (value o)
  | [] => Throw (TypeError "Cannot read properties of undefined (reading 'value')")
  end.

(** The four [useState] initialisers of the first render. *)
Definition initial_state : completion AppState :=
  bind (first_value CURRENCY_OPTIONS) (λ c,
  bind (first_value ORDER_OPTIONS) (λ o,
  Normal {| page := of_Z 1; pageSize := of_Z 10; currency := c; order := o |})).

Definition setPage (v : number) (st : AppState) : AppState :=
  {| page := v; pageSize := pageSize st; currency := currency st; order := order st |}.
Definition setPageSize (v : number) (st : AppState) : AppState :=
  {| page := page st; pageSize := v; currency := currency st; order := order st |}.
Definition setCurrency (v : Currency) (st : AppState) : AppState :=
  {| page := page st; pageSize := pageSize st; currency := v; order := order st |}.
Definition setOrder (v : Order) (st : AppState) : AppState :=
  {| page := page st; pageSize := pageSize st; currency := currency st; order := v |}.

Definition handleChangeCurrency (value : Currency) : AppState → AppState := setCurrency value.
Definition handleChangeOrder (value : Order) : AppState → AppState := setOrder value.
Definition handlePageSizeChange (_ value : number) : AppState → AppState := setPageSize value.
Definition handlePageChange (page : number) : AppState → AppState := setPage page.

(** The parameter object [App] hands to [useGetCoins]: [sparkline] and
    [enabled] are left out. *)
Definition hook_params (st : AppState) : GetCoinsHookParams.t :=
  {| GetCoinsHookParams.currency := currency st;
     GetCoinsHookParams.order := order st;
     GetCoinsHookParams.perPage := pageSize st;
     GetCoinsHookParams.page := page st;
     GetCoinsHookParams.sparkline := None;
     GetCoinsHookParams.enabled := None |}.

(** ** The table (App.tsx:116-152, 193) *)

(** What a cell shows: an [<Image>] element, or a plain value handed to
    React ([null] and [undefined] show as nothing). *)
Inductive Cell :=
| ImageElement (src : val) (alt : string) (width : nat)
| Plain (v : val).

Record Column := {
  title : string;
  dataIndex : string;
  key : string;
  render : option (val → completion Cell);
  responsive : option (list string)   (* [None]: the column has no such property *)
}.

Definition render_symbol (U : string → string) (text : val) : completion Cell :=
  bind (call_toUpperCase U text) (λ s, Normal (Plain s)).

Definition render_price (U : string → string) (currency : Currency) (text : val)
    : completion Cell :=
  bind (call_toString text) (λ s,
  bind (call_toUpperCase U s) (λ u,
  Normal (Plain (VStr (template [""; " "; ""] [u; VStr (Currency_str currency)]))))).

Definition columns (U : string → string) (currency : Currency) : list Column :=
  [ {| title := "Image"; dataIndex := "image"; key := "image";
       render := Some (λ text, Normal (ImageElement text "coin" 32)); responsive := None |};
    {| title := "Name"; dataIndex := "name"; key := "name";
       render := None; responsive := None |};
    {| title := "Symbol"; dataIndex := "symbol"; key := "symbol";
       render := Some (render_symbol U); responsive := Some ["lg"] |};
    {| title := "Price"; dataIndex := "current_price"; key := "current_price";
       render := Some (render_price U currency); responsive := None |};
    {| title := "Market Cap"; dataIndex := "market_cap"; key := "market_cap";
       render := None; responsive := Some ["lg"] |};
    {| title := "Circulating Supply"; dataIndex := "circulating_supply";
       key := "circulating_supply"; render := None; responsive := None |} ].

(** A body cell of the table: [render(record[dataIndex])] when the column
    has a renderer, [record[dataIndex]] itself otherwise. *)
Definition render_cell (record : Coin) (col : Column) : completion Cell :=
  let v := get_field (dataIndex col) record in
  match render col with
  | Some f => f v
  | None => Normal (Plain v)
  end.

(** The cells of the given columns for one record; which columns those are
    on a viewport is decided by [visible_columns] below. *)
Definition render_row (cols : list Column) (record : Coin) : completion (list Cell) :=
  mapM (render_cell record) cols.

(** Which breakpoints ([xs], [sm], [md], [lg], ...) the viewport matches. *)
Definition Screens := string → bool.

(** A column with a [responsive] list is shown when the viewport matches
    one of the listed breakpoints; a column without one is always shown. *)
Definition visible (screens : Screens) (col : Column) : bool :=
  match responsive col with
  | None => true
  | Some breakpoints => existsb screens breakpoints
  end.

Definition visible_columns (screens : Screens) (cols : list Column) : list Column :=
  List.filter (visible screens) cols.

(** [<Table columns={columns} dataSource={coins} />]: one row per record,
    made of the columns the viewport shows. *)
Definition Table (screens : Screens) (cols : list Column) (dataSource : list Coin)
    : completion (list (list Cell)) :=
  mapM (render_row (visible_columns screens cols)) dataSource.

Definition column_named (t : string) (cols : list Column) : option Column :=
  List.find (λ c, String.eqb (title c) t) cols.

(** ** The [useSWR] hook (App.tsx:92-96) *)

(** Modelled from the spec: [useSWR] belongs to the swr package, whose code is
    not under src/.  The machine below follows what §4.2 and §5 of the
    specification say the request layer does, for the three options the
    source passes to it: requests and results are keyed by the request URL;
    a key that already has a request registered is not requested again
    (deduplication); a failed request is retried while its retry count stays
    within [errorRetryCount]; a change of key is the only thing that starts a
    request, regaining focus does so only when [revalidateOnFocus] is set;
    with [keepPreviousData] the data returned last stays visible while the
    current key has none of its own.  Where the specification is silent, on
    what a key that was fetched before shows when the user returns to it,
    the machine does what swr documents: the result of a request is stored
    under its key, also when the key is no longer the current one, and a key
    with stored data shows that data.  Time is abstracted into events: when
    a request settles and when a timer fires is up to the environment. *)
Module SWR.

Record State := {
  cache : gmap string (list Coin);   (* data stored under each key *)
  FETCH : gset string;                (* keys that have a request registered *)
  inflight : list (string * nat);     (* unsettled requests, with their retry count *)
  timers : list (string * nat);       (* armed retry timers, with the count of the retry *)
  key : option string;                (* key of the latest render *)
  laggy : option (list Coin);         (* data returned by an earlier render *)
  calls : list string;                (* every URL handed to [axios.get], oldest first *)
  toasts : list Toast                 (* every notification emitted, oldest first *)
}.

Definition init : State :=
  {| cache := ∅; FETCH := ∅; inflight := []; timers := []; key := None;
     laggy := None; calls := []; toasts := [] |}.

Inductive Event :=
| Render (k : option string)        (* the component renders with key [k] *)
| Settle (u : string) (o : Outcome) (* the request for [u] settles *)
| RetryTimer (u : string) (n : nat) (* the back-off timer of retry [n] fires *)
| DedupeTimer (u : string)          (* the deduping interval of [u] is over *)
| Focus.                            (* the window regains focus *)

Fixpoint take_request (u : string) (l : list (string * nat))
    : option (nat * list (string * nat)) :=
  match l with
  | [] => None
  | (v, n) :: r =>
      if decide (u = v) then Some (n, r)
      else match take_request u r with
           | Some (m, r') => Some (m, (v, n) :: r')
           | None => None
           end
  end.

Fixpoint take_timer (t : string * nat) (l : list (string * nat))
    : option (list (string * nat)) :=
  match l with
  | [] => None
  | t' :: r =>
      if decide (t = t') then Some r
      else match take_timer t r with
           | Some r' => Some (t' :: r')
           | None => None
           end
  end.

Definition in_flight (u : string) (s : State) : bool :=
  bool_decide (u ∈ (inflight s).*1).

Section Machine.
Variable cfg : SWRConfiguration.

(** Data cached under the current key. *)
Definition cached (s : State) : option (list Coin) :=
  match key s with
  | Some u => cache s !! u
  | None => None
  end.

(** The [data] the hook returns. *)
Definition returnedData (s : State) : option (list Coin) :=
  match cached s with
  | Some d => Some d
  | None => if keepPreviousData cfg then laggy s else None
  end.

(** After a render, cached data of the current key becomes the data to
    fall back on. *)
Definition commit (s : State) : State :=
  match cached s with
  | Some d =>
      {| cache := cache s; FETCH := FETCH s; inflight := inflight s; timers := timers s;
         key := key s; laggy := Some d; calls := calls s; toasts := toasts s |}
  | None => s
  end.

(** Revalidation with deduplication: start a request for [u] unless one is
    registered. *)
Definition revalidate (u : string) (n : nat) (s : State) : State :=
  if decide (u ∈ FETCH s) then s
  else {| cache := cache s; FETCH := {[u]} ∪ FETCH s;
          inflight := inflight s ++ [(u, n)]; timers := timers s;
          key := key s; laggy := laggy s;
          calls := calls s ++ [request (fetcher u)]; toasts := toasts s |}.

Definition with_key (k : option string) (s : State) : State :=
  {| cache := cache s; FETCH := FETCH s; inflight := inflight s; timers := timers s;
     key := k; laggy := laggy s; calls := calls s; toasts := toasts s |}.

(** A render: only a changed key revalidates. *)
Definition render (k : option string) (s : State) : State :=
  if decide (k = key s) then s
  else match k with
       | Some u => revalidate u 0 (with_key k s)
       | None => with_key k s
       end.

Definition settle (u : string) (o : Outcome) (s : State) : option State :=
  match take_request u (inflight s) with
  | None => None
  | Some (n, rest) =>
      match resume (fetcher u) o (toasts s) with
      | (Normal d, ts) =>
          Some {| cache := <[u := d]> (cache s); FETCH := FETCH s; inflight := rest;
                  timers := timers s; key := key s; laggy := laggy s;
                  calls := calls s; toasts := ts |}
      | (Throw _, ts) =>
          Some {| cache := cache s; FETCH := FETCH s ∖ {[u]}; inflight := rest;
                  timers := if bool_decide (key s = Some u) && (n + 1 <=? errorRetryCount cfg)
                            then timers s ++ [(u, n + 1)] else timers s;
                  key := key s; laggy := laggy s;
                  calls := calls s; toasts := ts |}
      end
  end.

Definition retry_timer (u : string) (n : nat) (s : State) : option State :=
  match take_timer (u, n) (timers s) with
  | None => None
  | Some rest =>
      let s1 := {| cache := cache s; FETCH := FETCH s; inflight := inflight s; timers := rest;
                   key := key s; laggy := laggy s; calls := calls s; toasts := toasts s |} in
      Some (if bool_decide (key s = Some u) then revalidate u n s1 else s1)
  end.

Definition dedupe_timer (u : string) (s : State) : option State :=
  if bool_decide (u ∈ FETCH s) && negb (in_flight u s)
  then Some {| cache := cache s; FETCH := FETCH s ∖ {[u]}; inflight := inflight s;
               timers := timers s; key := key s; laggy := laggy s;
               calls := calls s; toasts := toasts s |}
  else None.

Definition focus (s : State) : State :=
  if revalidateOnFocus cfg
  then match key s with Some u => revalidate u 0 s | None => s end
  else s.

(** One event; [None] when the event cannot happen in [s] (no such request
    or timer). *)
Definition step (e : Event) (s : State) : option State :=
  commit <$> match e with
             | Render k => Some (render k s)
             | Settle u o => settle u o s
             | RetryTimer u n => retry_timer u n s
             | DedupeTimer u => dedupe_timer u s
             | Focus => Some (focus s)
             end.

Fixpoint run (evs : list Event) (s : State) : option State :=
  match evs with
  | [] => Some s
  | e :: evs' => match step e s with
                 | Some s' => run evs' s'
                 | None => None
                 end
  end.

Definition isValidating (s : State) : bool :=
  match key s with Some u => in_flight u s | None => false end.

Definition isLoading (s : State) : bool :=
  isValidating s && bool_decide (cached s = None).

End Machine.

(** The last response that resolved in a trace, with the key it was for. *)
Fixpoint last_success (evs : list Event) (acc : option (string * list Coin))
    : option (string * list Coin) :=
  match evs with
  | [] => acc
  | Settle u o :: evs' =>
      match axios_get o with
      | Normal response => last_success evs' (Some (u, data response))
      | Throw _ => last_success evs' acc
      end
  | _ :: evs' => last_success evs' acc
  end.




End SWR.

(** ** [useGetCoins] (App.tsx:87-101) *)

Record GetCoins := { coins : list Coin; isLoading : bool; isValidating : bool }.

(** The coin list on screen in a state of the request layer. *)
Definition shown (s : SWR.State) : list Coin :=
  coins_of (SWR.returnedData swr_options s).

(** A call of the hook is a render of [useSWR] with the key built from the
    parameters; it returns what the request layer holds afterwards.  (The
    fourth result, [mutate], is the manual refresh; [App] never takes it.) *)
Definition useGetCoins (p : GetCoinsHookParams.t) (s : SWR.State) : GetCoins * SWR.State :=
  let s' := SWR.commit (SWR.render (swr_key p) s) in
  ({| coins := shown s';
      isLoading := SWR.isLoading s';
      isValidating := SWR.isValidating s' |}, s').

(** ** Vocabulary of the statements *)

Fixpoint string_all (P : ascii → bool) (s : string) : bool :=
  match s with
  | EmptyString => true
  | String c r => P c && string_all P r
  end.

(** No letter [a]..[z] occurs in [s]. *)
Definition no_lower (s : string) : bool := string_all (λ c, negb (is_lower c)) s.

(** No letter [A]..[Z] occurs in [s]. *)
Definition no_upper (s : string) : bool := string_all (λ c, negb (is_upper c)) s.

(** The numbers [Number::toString] prints in plain decimal notation: zero,
    and the finite ones from 1e-6 up to (not including) 1e21. *)
Definition plain_decimal (x : number) : bool :=
  match x with
  | Zero _ => true
  | Finite _ _ n => ((-5 <=? n) && (n <=? 21))%Z
  | _ => false
  end.

(** A record with the given identity and price; the remaining fields are
    [null]. *)
Definition coin_of (i sym nm : string) (price : val) : Coin :=
  {| id := i; symbol := sym; name := nm; image := VNull; current_price := price;
     market_cap := VNull; market_cap_rank := VNull; fully_diluted_valuation := VNull;
     total_volume := VNull; high_24h := VNull; low_24h := VNull; price_change_24h := VNull;
     price_change_percentage_24h := VNull; market_cap_change_24h := VNull;
     market_cap_change_percentage_24h := VNull; circulating_supply := VNull;
     total_supply := VNull; max_supply := VNull; ath := VNull;
     ath_change_percentage := VNull; ath_date := VNull; atl := VNull;
     atl_change_percentage := VNull; atl_date := VNull; roi := VNull;
     last_updated := VNull |}.

Definition bitcoin : Coin := coin_of "bitcoin" "btc" "Bitcoin" (VNum (Finite false 420005 5)).
Definition dust : Coin := coin_of "dust" "dst" "Dust" (VNum (Finite false 1 (-6))).
Definition unpriced : Coin := coin_of "ghost" "gst" "Ghost" VNull.

Definition params (c : Currency) (o : Order) (perPage page : Z) : GetCoinsHookParams.t :=
  {| GetCoinsHookParams.currency := c; GetCoinsHookParams.order := o;
     GetCoinsHookParams.perPage := of_Z perPage; GetCoinsHookParams.page := of_Z page;
     GetCoinsHookParams.sparkline := None; GetCoinsHookParams.enabled := None |}.

Definition url_page1 : string := apiUrl usd market_cap_desc (of_Z 10) (of_Z 1) false.
Definition url_page2 : string := apiUrl usd market_cap_desc (of_Z 10) (of_Z 2) false.

Definition ok (body : list Coin) : Outcome := Answered {| status := 200; data := body |}.

Definition error_toast : Toast :=
  {| toast_type := toast_error_type; message := "Error fetching data";
     position := "bottom-left" |}.

(** The state the request layer is in after a trace from the initial state
    (the initial state when the trace cannot happen). *)
Definition state_after (evs : list SWR.Event) : SWR.State :=
  match SWR.run swr_options evs SWR.init with
  | Some s => s
  | None => SWR.init
  end.




(** A request fails: no answer at all, or an answer whose status is not a
    2xx one. *)
Definition request_fails (o : Outcome) : Prop :=
  o = NetworkError ∨ ∃ r, o = Answered r ∧ (status r < 200 ∨ 300 ≤ status r).

(** The state [App] starts from. *)
Definition first_state : AppState :=
  {| page := of_Z 1; pageSize := of_Z 10; currency := usd; order := market_cap_desc |}.

(** A call of one of the four handlers, as the two selects and the
    pagination control make them (App.tsx:178, 188, 200, 201); what one user
    gesture amounts to is a list of such calls. *)
Inductive Mutation :=
| ChangeCurrency (value : Currency)
| ChangeOrder (value : Order)
| ShowSizeChange (current size : number)
| PageChange (page : number).

Definition mutate (st : AppState) (m : Mutation) : AppState :=
  match m with
  | ChangeCurrency v => handleChangeCurrency v st
  | ChangeOrder v => handleChangeOrder v st
  | ShowSizeChange current size => handlePageSizeChange current size st
  | PageChange p => handlePageChange p st
  end.

Definition is_page_change (m : Mutation) : bool :=
  match m with PageChange _ => true | _ => false end.

(** The cell the column titled [t] shows for [record]. *)
Definition cell_of (U : string → string) (t : string) (cur : Currency) (record : Coin)
    : option (completion Cell) :=
  render_cell record <$> column_named t (columns U cur).

(** ** Vocabulary of the further properties *)

(** The character is not the separator [&] of the query string. *)
Definition not_amp (c : ascii) : bool := negb (Ascii.eqb c "&").

(** The cells of a row on a viewport that shows all six columns, with
    [price_cell] as its Price cell. *)
Definition row_cells (U : string → string) (record : Coin) (price_cell : Cell) : list Cell :=
  [ImageElement (image record) "coin" 32; Plain (VStr (name record));
   Plain (VStr (U (symbol record))); price_cell;
   Plain (market_cap record); Plain (circulating_supply record)].

Definition price_present (record : Coin) : bool := negb (is_nullish (current_price record)).

(** The first record of a list that has no price. *)
Definition first_unpriced (l : list Coin) : option Coin :=
  List.find (λ r, negb (price_present r)) l.

(** Several requests settling one after the other, each resumed by the
    fetcher with the notifications left by the ones before. *)
Fixpoint settle_all (rs : list (string * Outcome)) (ts : list Toast)
    : list (completion (list Coin)) * list Toast :=
  match rs with
  | [] => ([], ts)
  | (u, o) :: rs' =>
      let (c, ts1) := resume (fetcher u) o ts in
      let (cs, ts2) := settle_all rs' ts1 in
      (c :: cs, ts2)
  end.

(** What a request hands back to the caller of the fetcher. *)
Definition fetched (o : Outcome) : completion (list Coin) :=
  match axios_get o with
  | Normal response => Normal (data response)
  | Throw e => Throw e
  end.

Definition failures (rs : list (string * Outcome)) : nat :=
  length (List.filter (λ r, negb (is_normal (axios_get (snd r)))) rs).

(** The value a field has after a list of mutations: the last one written
    to it, or the one it had. *)
Definition last_page (ms : list Mutation) (d : number) : number :=
  foldl (λ acc m, match m with PageChange p => p | _ => acc end) d ms.
Definition last_pageSize (ms : list Mutation) (d : number) : number :=
  foldl (λ acc m, match m with ShowSizeChange _ v => v | _ => acc end) d ms.
Definition last_currency (ms : list Mutation) (d : Currency) : Currency :=
  foldl (λ acc m, match m with ChangeCurrency v => v | _ => acc end) d ms.
Definition last_order (ms : list Mutation) (d : Order) : Order :=
  foldl (λ acc m, match m with ChangeOrder v => v | _ => acc end) d ms.

(** The mutation writes what its field shows already. *)
Definition rewrites_same (st : AppState) (m : Mutation) : Prop :=
  match m with
  | ChangeCurrency v => v = currency st
  | ChangeOrder v => v = order st
  | ShowSizeChange _ v => Number_toString v = Number_toString (pageSize st)
  | PageChange p => Number_toString p = Number_toString (page st)
  end.

(** ** Invariants of the request layer *)



(** Nothing has been cached or returned yet. *)
Definition blank (s : SWR.State) : Prop := SWR.cache s = ∅ ∧ SWR.laggy s = None.


(** * Properties *)

Example toString_42000_5 : Number_toString (Finite false 420005 5) = "42000.5".
Proof. reflexivity. Qed.
Example toString_1e_7 : Number_toString (Finite false 1 (-6)) = "1e-7".
Proof. reflexivity. Qed.
Example toString_1e21 : Number_toString (Finite false 1 22) = "1e+21".
Proof. reflexivity. Qed.
Example toString_1e20 : Number_toString (Finite false 1 21) = "100000000000000000000".
Proof. reflexivity. Qed.
Example toString_small : Number_toString (Finite false 822 (-5)) = "0.00000822".
Proof. reflexivity. Qed.
Example toString_exp : Number_toString (Finite true 15 (-8)) = "-1.5e-9".
Proof. reflexivity. Qed.
Example of_Z_canonical : forallb canonical (PAGINATION_TOTAL :: PAGE_SIZE_OPTIONS) = true.
Proof. reflexivity. Qed.
Example page_sizes_text :
  map Number_toString (PAGINATION_TOTAL :: PAGE_SIZE_OPTIONS) =
  ["10000"; "5"; "10"; "20"; "50"; "100"].
Proof. reflexivity. Qed.
Example toString_10 : Number_toString (of_Z 10) = "10".
Proof. reflexivity. Qed.
Example toString_neg : Number_toString (of_Z (-1230)) = "-1230".
Proof. reflexivity. Qed.
Example upper_btc : toUpperCase "btc" = "BTC".
Proof. reflexivity. Qed.
Example url_page1_text :
  url_page1 = "https://api.coingecko.com/api/v3/coins/markets?vs_currency=usd&order=market_cap_desc&per_page=10&page=1&sparkline=false".
Proof. reflexivity. Qed.
Example row_bitcoin :
  render_row (columns toUpperCase usd) bitcoin =
  Normal [ImageElement VNull "coin" 32; Plain (VStr "Bitcoin"); Plain (VStr "BTC");
          Plain (VStr "42000.5 usd"); Plain VNull; Plain VNull].
Proof. reflexivity. Qed.
Example row_dust_price :
  render_cell dust {| title := "Price"; dataIndex := "current_price"; key := "current_price";
                      render := Some (render_price toUpperCase usd);
                      responsive := None |}
  = Normal (Plain (VStr "1E-7 usd")).
Proof. reflexivity. Qed.
Example row_unpriced : is_normal (render_row (columns toUpperCase usd) unpriced) = false.
Proof. reflexivity. Qed.
Example first_render_calls :
  SWR.calls (snd (useGetCoins (params usd market_cap_desc 10 1) SWR.init)) = [url_page1].
Proof. vm_compute. reflexivity. Qed.

(** ** Strings *)

Lemma append_cons (c : ascii) (s t : string) : String c s +:+ t = String c (s +:+ t).
Proof. reflexivity. Qed.

Lemma append_empty_r (s : string) : s +:+ "" = s.
Proof. induction s as [|c s IH]; [done | by rewrite append_cons, IH]. Qed.

Lemma string_all_app P (s t : string) :
  string_all P (s +:+ t) = string_all P s && string_all P t.
Proof.
  induction s as [|c s IH]; [done|].
  rewrite append_cons. simpl. by rewrite IH, andb_assoc.
Qed.

Lemma string_all_substring P (s : string) (a b : nat) :
  string_all P s = true → string_all P (String.substring a b s) = true.
Proof.
  revert a b. induction s as [|c s IH]; intros a b H.
  - by destruct a, b.
  - simpl in H. apply andb_true_iff in H as [Hc Hs].
    destruct a as [|a]; simpl.
    + destruct b as [|b]; simpl; [done|]. rewrite Hc. by apply IH.
    + by apply IH.
Qed.

Lemma upper_ascii_not_lower (c : ascii) : is_lower (upper_ascii c) = false.
Proof. destruct c as [[] [] [] [] [] [] [] []]; reflexivity. Qed.

Lemma upper_ascii_fixed (c : ascii) : is_lower c = false → upper_ascii c = c.
Proof. unfold upper_ascii. by intros ->. Qed.

Lemma toUpperCase_no_lower (s : string) : no_lower (toUpperCase s) = true.
Proof.
  induction s as [|c s IH]; simpl; [done|].
  unfold no_lower in *. simpl. by rewrite upper_ascii_not_lower, IH.
Qed.

Lemma toUpperCase_fixed (s : string) : no_lower s = true → toUpperCase s = s.
Proof.
  unfold no_lower. induction s as [|c s IH]; simpl; [done|].
  intros [Hc Hs]%andb_true_iff. apply negb_true_iff in Hc.
  by rewrite upper_ascii_fixed, IH.
Qed.



Lemma no_lower_zeros (n : nat) : no_lower (zeros n) = true.
Proof. induction n; [done|]. unfold no_lower in *. simpl. by rewrite IHn. Qed.

Lemma no_lower_uint (u : Decimal.uint) : no_lower (NilEmpty.string_of_uint u) = true.
Proof. unfold no_lower. induction u; simpl; done. Qed.

Lemma no_lower_digits (s : positive) : no_lower (digits s) = true.
Proof. apply no_lower_uint. Qed.

(** A number printed in plain decimal notation contains no letter, so
    upper-casing leaves its text alone. *)
Lemma plain_decimal_no_lower (x : number) :
  plain_decimal x = true → no_lower (Number_toString x) = true.
Proof.
  destruct x as [| neg | neg | neg s n]; simpl; try done.
  intros ->. unfold no_lower. rewrite string_all_app.
  apply andb_true_iff; split; [by destruct neg|].
  pose proof (no_lower_digits s) as Hd. unfold no_lower in Hd.
  repeat case_match; rewrite ?string_all_app, ?Hd; simpl;
    rewrite ?string_all_substring by done; try done.
  - apply (no_lower_zeros _).
  - pose proof (no_lower_zeros (Z.to_nat (- n))) as Hz. unfold no_lower in Hz.
    by rewrite Hz.
Qed.

Lemma Number_toString_upper (x : number) :
  plain_decimal x = true → toUpperCase (Number_toString x) = Number_toString x.
Proof. intros H. by apply toUpperCase_fixed, plain_decimal_no_lower. Qed.

(** ** The table columns *)

Lemma ascii_case_mapping : case_mapping toUpperCase.
Proof. by intros s _. Qed.

Lemma ascii_only_app (s t : string) : ascii_only (s +:+ t) = ascii_only s && ascii_only t.
Proof.
  induction s as [|c s IH]; [done|].
  rewrite append_cons. simpl. by rewrite IH, andb_assoc.
Qed.

Lemma ascii_only_substring (s : string) (a b : nat) :
  ascii_only s = true → ascii_only (String.substring a b s) = true.
Proof.
  revert a b. induction s as [|c s IH]; intros a b H.
  - by destruct a, b.
  - simpl in H. apply andb_true_iff in H as [Hc Hs].
    destruct a as [|a]; simpl.
    + destruct b as [|b]; simpl; [done|]. rewrite Hc. by apply IH.
    + by apply IH.
Qed.

Lemma ascii_only_zeros (n : nat) : ascii_only (zeros n) = true.
Proof. induction n; [done|]. simpl. by rewrite IHn. Qed.

Lemma ascii_only_uint (u : Decimal.uint) : ascii_only (NilEmpty.string_of_uint u) = true.
Proof. induction u; simpl; done. Qed.

Lemma ascii_only_decimal (z : Z) : ascii_only (decimal_of_Z z) = true.
Proof.
  unfold decimal_of_Z, NilZero.string_of_uint.
  destruct (N.to_uint (Z.to_N z)) eqn:Hu; try done; rewrite <- Hu; apply ascii_only_uint.
Qed.

(** The text of a number is ASCII. *)
Lemma ascii_only_number (x : number) : ascii_only (Number_toString x) = true.
Proof.
  destruct x as [| neg | neg | neg s n]; simpl; try done; [by destruct neg|].
  rewrite ascii_only_app. apply andb_true_iff; split; [by destruct neg|].
  pose proof (ascii_only_uint (Pos.to_uint s)) as Hd. fold (digits s) in Hd.
  pose proof (ascii_only_decimal (Z.abs (n - 1))) as He.
  repeat case_match;
    rewrite ?ascii_only_app, ?Hd, ?He, ?ascii_only_zeros; simpl;
    rewrite ?ascii_only_substring, ?Hd, ?He by done; simpl;
    rewrite ?ascii_only_app, ?He; done.
Qed.




Lemma column_Price U (cur : Currency) :
  column_named "Price" (columns U cur) =
  Some {| title := "Price"; dataIndex := "current_price"; key := "current_price";
          render := Some (render_price U cur); responsive := None |}.
Proof. reflexivity. Qed.

Lemma render_price_present U (cur : Currency) (v : val) :
  is_nullish v = false →
  render_price U cur v = Normal (Plain (VStr (U (ToString v) +:+ " " +:+ Currency_str cur))).
Proof.
  intros Hv. destruct v; try done;
    unfold render_price, call_toString, call_toUpperCase, bind, template, ToString;
    by rewrite append_empty_r.
Qed.

Lemma render_price_absent U (cur : Currency) (v : val) :
  is_nullish v = true → ∃ msg, render_price U cur v = Throw (TypeError msg).
Proof. destruct v; try done; intros _; by eexists. Qed.

Lemma render_price_number U (cur : Currency) (x : number) :
  case_mapping U →
  render_price U cur (VNum x) =
  Normal (Plain (VStr (toUpperCase (Number_toString x) +:+ " " +:+ Currency_str cur))).
Proof.
  intros HU. rewrite render_price_present by done. simpl.
  by rewrite (HU _ (ascii_only_number x)).
Qed.

(** No column reads a field that the interface declares nullable. *)
Lemma columns_avoid_declared_nullable U (cur : Currency) :
  Forall (λ col, dataIndex col ∉ declared_nullable) (columns U cur).
Proof.
  unfold columns, declared_nullable.
  repeat constructor; simpl; intros H;
    repeat (apply elem_of_cons in H as [H|H]; [discriminate|]);
    by apply elem_of_nil in H.
Qed.

Lemma mapM_is_normal {A B} (f : A → completion B) (l : list A) :
  is_normal (mapM f l) = forallb (λ a, is_normal (f a)) l.
Proof.
  induction l as [|a l IH]; [done|]. simpl.
  destruct (f a); simpl; [|done]. rewrite <- IH. by destruct (mapM f l).
Qed.

Lemma forallb_filter {A} (P g : A → bool) (l : list A) :
  forallb P l = true → forallb P (List.filter g l) = true.
Proof.
  induction l as [|a l IH]; [done|]. simpl.
  intros [Ha Hl]%andb_true_iff. destruct (g a); simpl; rewrite ?Ha; auto.
Qed.



(** C3, as the code has it. For a record whose price is a number, the Price
    column shows the upper-cased text of the number, a space and the currency
    code, which is lower-case; for a price printed in plain decimal notation
    (zero, or 1e-6 <= |price| < 1e21) that is the price's own text followed by
    a space and the currency code. *)
Theorem price_column_render (U : string → string) (cur : Currency) (record : Coin)
    (x : number) :
  case_mapping U →
  current_price record = VNum x →
  cell_of U "Price" cur record =
    Some (Normal (Plain (VStr (toUpperCase (Number_toString x) +:+ " " +:+ Currency_str cur)))) ∧
  (plain_decimal x = true →
   cell_of U "Price" cur record =
     Some (Normal (Plain (VStr (Number_toString x +:+ " " +:+ Currency_str cur))))) ∧
  no_upper (Currency_str cur) = true.
Proof.
  intros HU Hprice.
  assert (cell_of U "Price" cur record = Some (render_price U cur (VNum x))) as Hcell.
  { unfold cell_of. rewrite column_Price. simpl. unfold render_cell. simpl.
    by rewrite <- Hprice. }
  rewrite Hcell, render_price_number by done. split_and!.
  - done.
  - intros Hplain. by rewrite Number_toString_upper.
  - by destruct cur.
Qed.

Lemma price_column_render_witness :
  cell_of toUpperCase "Price" usd bitcoin = Some (Normal (Plain (VStr "42000.5 usd"))).
Proof.
  destruct (price_column_render toUpperCase usd bitcoin (Finite false 420005 5)
              ascii_case_mapping eq_refl) as (_ & H & _).
  exact (H eq_refl).
Defined.

(** C3 fails as stated: a price of 1e-7 prints as "1e-7", and the column
    shows "1E-7 usd" (the text is ASCII, where every case mapping is the
    ASCII one). *)
Lemma price_column_exponent_counterexample :
  current_price dust = VNum (Finite false 1 (-6)) ∧
  ToString (current_price dust) = "1e-7" ∧
  cell_of toUpperCase "Price" usd dust = Some (Normal (Plain (VStr "1E-7 usd"))) ∧
  cell_of toUpperCase "Price" usd dust ≠
    Some (Normal (Plain (VStr (ToString (current_price dust) +:+ " " +:+ Currency_str usd)))).
Proof. split_and!; [reflexivity | reflexivity | reflexivity | vm_compute; congruence]. Qed.

(** C4, as the code has it. Every column renders without an error for every
    record whose current_price is present, whichever of its other fields are
    absent; so does the row of the columns shown, on every viewport. *)
Theorem columns_render_when_price_present (U : string → string) (screens : Screens)
    (cur : Currency) (record : Coin) :
  is_nullish (current_price record) = false →
  Forall (λ col, is_normal (render_cell record col) = true) (columns U cur) ∧
  is_normal (render_row (visible_columns screens (columns U cur)) record) = true.
Proof.
  intros Hprice.
  assert (Forall (λ col, is_normal (render_cell record col) = true) (columns U cur)) as Hall.
  { unfold columns. repeat constructor; try reflexivity.
    unfold render_cell; simpl.
    change (get_field "current_price" record) with (current_price record).
    by rewrite (render_price_present U cur _ Hprice). }
  split; [done|].
  unfold render_row, visible_columns. rewrite mapM_is_normal.
  apply forallb_filter. induction Hall as [|col cols Hcol _ IH]; [done|].
  simpl. by rewrite Hcol, IH.
Qed.

Lemma columns_render_when_price_present_witness :
  is_normal (render_row (visible_columns (λ _, false) (columns toUpperCase usd)) bitcoin) = true.
Proof.
  exact (proj2 (columns_render_when_price_present toUpperCase (λ _, false) usd bitcoin eq_refl)).
Defined.

(** C4 fails as stated: with current_price null the Price renderer throws a
    TypeError, and so do the row and the table, on a wide viewport and on a
    narrow one. *)
Lemma absent_price_counterexample :
  current_price unpriced = VNull ∧
  cell_of toUpperCase "Price" usd unpriced =
    Some (Throw (TypeError "Cannot read properties of null (reading 'toString')")) ∧
  is_normal (render_row (columns toUpperCase usd) unpriced) = false ∧
  is_normal (Table (λ _, true) (columns toUpperCase usd) [unpriced]) = false ∧
  is_normal (Table (λ _, false) (columns toUpperCase usd) [unpriced]) = false.
Proof. split_and!; reflexivity. Qed.

(** ** The request URL and the query state *)

Lemma apiUrl_text (c : Currency) (o : Order) (perPage page : number) (sparkline : bool) :
  apiUrl c o perPage page sparkline =
  baseUrl +:+ "?vs_currency=" +:+ Currency_str c +:+ "&order=" +:+ Order_str o +:+
  "&per_page=" +:+ Number_toString perPage +:+ "&page=" +:+ Number_toString page +:+
  "&sparkline=" +:+ (if sparkline then "true" else "false").
Proof.
  unfold apiUrl, template, ToString.
  rewrite append_empty_r. reflexivity.
Qed.

(** C6. For every enabled parameter tuple the key handed to [useSWR], which is
    the URL the fetcher requests, is the fixed endpoint followed by
    ?vs_currency=, order=, per_page=, page= and sparkline= with the parameters
    interpolated in that order. *)
Theorem request_url_format (p : GetCoinsHookParams.t) :
  or_default true (GetCoinsHookParams.enabled p) = true →
  ∃ url,
    swr_key p = Some url ∧
    request (fetcher url) = url ∧
    url = "https://api.coingecko.com/api/v3/coins/markets" +:+
          "?vs_currency=" +:+ Currency_str (GetCoinsHookParams.currency p) +:+
          "&order=" +:+ Order_str (GetCoinsHookParams.order p) +:+
          "&per_page=" +:+ Number_toString (GetCoinsHookParams.perPage p) +:+
          "&page=" +:+ Number_toString (GetCoinsHookParams.page p) +:+
          "&sparkline=" +:+
          (if or_default false (GetCoinsHookParams.sparkline p) then "true" else "false").
Proof.
  intros Henabled. eexists. split_and!.
  - unfold swr_key. rewrite Henabled. reflexivity.
  - reflexivity.
  - apply apiUrl_text.
Qed.

Lemma request_url_format_witness :
  swr_key (params eur market_cap_asc 50 3) =
  Some "https://api.coingecko.com/api/v3/coins/markets?vs_currency=eur&order=market_cap_asc&per_page=50&page=3&sparkline=false".
Proof.
  destruct (request_url_format (params eur market_cap_asc 50 3) eq_refl) as (url & Hkey & _ & Hurl).
  rewrite Hkey, Hurl. reflexivity.
Defined.

(** C7. Changing the currency, the ordering or the page size leaves the page
    number as it is: each of the three handlers writes its own field and
    keeps the other three, so after any sequence of such changes the page is
    the one before. *)
Theorem mutators_keep_page (st : AppState) (ms : list Mutation) :
  forallb (λ m, negb (is_page_change m)) ms = true →
  page (foldl mutate st ms) = page st ∧
  (∀ v, handleChangeCurrency v st =
        {| page := page st; pageSize := pageSize st; currency := v; order := order st |}) ∧
  (∀ v, handleChangeOrder v st =
        {| page := page st; pageSize := pageSize st; currency := currency st; order := v |}) ∧
  (∀ current v, handlePageSizeChange current v st =
        {| page := page st; pageSize := v; currency := currency st; order := order st |}).
Proof.
  intros Hms. split; [|done].
  revert st. induction ms as [|m ms IH]; intros st; [done|].
  simpl in Hms. apply andb_true_iff in Hms as [Hm Hms].
  simpl. rewrite (IH Hms). by destruct m.
Qed.

Lemma mutators_keep_page_witness :
  Number_toString
    (page (foldl mutate (setPage (of_Z 3) first_state)
                 [ShowSizeChange (of_Z 3) (of_Z 50); ChangeCurrency eur;
                  ChangeOrder market_cap_asc])) = "3".
Proof.
  rewrite (proj1 (mutators_keep_page (setPage (of_Z 3) first_state)
                    [ShowSizeChange (of_Z 3) (of_Z 50); ChangeCurrency eur;
                     ChangeOrder market_cap_asc] eq_refl)).
  reflexivity.
Defined.

(** C10. The first render has page 1, page size 10, currency usd and order
    market_cap_desc; [App] leaves [enabled] and [sparkline] out, so they take
    their defaults true and false, and the first request is for page 1 of 10
    usd records by descending market cap with sparkline=false: that URL is
    the key of the first render and what the fetcher requests for it. *)
Theorem initial_request :
  initial_state = Normal first_state ∧
  Number_toString (page first_state) = "1" ∧
  Number_toString (pageSize first_state) = "10" ∧
  Currency_str (currency first_state) = "usd" ∧
  Order_str (order first_state) = "market_cap_desc" ∧
  GetCoinsHookParams.enabled (hook_params first_state) = None ∧
  GetCoinsHookParams.sparkline (hook_params first_state) = None ∧
  or_default true (GetCoinsHookParams.enabled (hook_params first_state)) = true ∧
  or_default false (GetCoinsHookParams.sparkline (hook_params first_state)) = false ∧
  swr_key (hook_params first_state) =
    Some "https://api.coingecko.com/api/v3/coins/markets?vs_currency=usd&order=market_cap_desc&per_page=10&page=1&sparkline=false" ∧
  request (fetcher (apiUrl usd market_cap_desc (of_Z 10) (of_Z 1) false)) =
    "https://api.coingecko.com/api/v3/coins/markets?vs_currency=usd&order=market_cap_desc&per_page=10&page=1&sparkline=false".
Proof. split_and!; reflexivity. Qed.

(** ** The request layer: structure of the request and timer lists *)


Lemma take_request_None (u : string) (l : list (string * nat)) :
  SWR.take_request u l = None → u ∉ l.*1.
Proof.
  induction l as [|[v m] l IH]; simpl; intros H; [apply not_elem_of_nil|].
  destruct (decide (u = v)) as [->|Hne]; [done|].
  destruct (SWR.take_request u l) as [[m' r']|]; [done|].
  rewrite not_elem_of_cons. split; [done | by apply IH].
Qed.

Lemma take_request_is_Some (u : string) (l : list (string * nat)) :
  u ∈ l.*1 → is_Some (SWR.take_request u l).
Proof.
  intros Hin. destruct (SWR.take_request u l) eqn:H; [done|].
  by apply take_request_None in H.
Qed.


(** ** The request layer: invariant *)


















Lemma run_app cfg evs1 evs2 s :
  SWR.run cfg (evs1 ++ evs2) s = SWR.run cfg evs1 s ≫= SWR.run cfg evs2.
Proof.
  revert s. induction evs1 as [|e evs1 IH]; intros s; simpl; [done|].
  destruct (SWR.step cfg e s); [apply IH | done].
Qed.

(** ** The fetcher *)

Lemma request_fails_throws (o : Outcome) :
  request_fails o → ∃ e, axios_get o = Throw e.
Proof.
  intros [->|(r & -> & Hstatus)]; unfold axios_get; [by eexists|].
  destruct (200 <=? status r) eqn:Hlo; simpl.
  - destruct (status r <? 300) eqn:Hhi; [|by eexists].
    apply Nat.leb_le in Hlo. apply Nat.ltb_lt in Hhi. lia.
  - by eexists.
Qed.

Lemma fetcher_failure (url : string) (o : Outcome) (e : error) (ts : list Toast) :
  axios_get o = Throw e → resume (fetcher url) o ts = (Throw e, ts ++ [error_toast]).
Proof.
  intros H. unfold fetcher, resume, try_catch, seq, lift, toast_error, throw. by rewrite H.
Qed.

Lemma fetcher_success (url : string) (o : Outcome) (r : AxiosResponse) (ts : list Toast) :
  axios_get o = Normal r → resume (fetcher url) o ts = (Normal (data r), ts).
Proof.
  intros H. unfold fetcher, resume, try_catch, seq, lift, ret. by rewrite H.
Qed.

(** ** What the hook returns *)

Lemma returnedData_commit cfg s :
  SWR.returnedData cfg (SWR.commit s) = SWR.returnedData cfg s.
Proof.
  unfold SWR.returnedData, SWR.commit.
  destruct (SWR.cached s) as [d|] eqn:Hc; [|by rewrite Hc].
  unfold SWR.cached in *. simpl. by rewrite Hc.
Qed.

Lemma shown_commit s : shown (SWR.commit s) = shown s.
Proof. unfold shown. by rewrite returnedData_commit. Qed.

Lemma step_Render cfg k s : SWR.step cfg (SWR.Render k) s = Some (SWR.commit (SWR.render k s)).
Proof. reflexivity. Qed.

Lemma useGetCoins_step p s :
  SWR.step swr_options (SWR.Render (swr_key p)) s = Some (snd (useGetCoins p s)) ∧
  coins (fst (useGetCoins p s)) = shown (snd (useGetCoins p s)).
Proof. done. Qed.

(** C1. When a request the fetcher has sent fails (no answer, or an answer
    with a non-2xx status), the fetcher adds one notification with the text
    "Error fetching data" and throws the error it caught; the request layer
    then holds exactly that one notification more, and the coin list on
    screen is the one before. *)
Theorem failed_request_notifies_once (u : string) (o : Outcome) (s s' : SWR.State) :
  request_fails o →
  SWR.step swr_options (SWR.Settle u o) s = Some s' →
  ∃ e, axios_get o = Throw e ∧
       resume (fetcher u) o (SWR.toasts s) = (Throw e, SWR.toasts s ++ [error_toast]) ∧
       message error_toast = "Error fetching data" ∧
       SWR.toasts s' = SWR.toasts s ++ [error_toast] ∧
       shown s' = shown s.
Proof.
  intros Hfail Hstep.
  destruct (request_fails_throws o Hfail) as [e He].
  exists e. split_and!; [done | by apply fetcher_failure | done | |].
  - unfold SWR.step in Hstep. apply fmap_Some in Hstep as (s1 & Hsettle & ->).
    unfold SWR.settle in Hsettle.
    destruct (SWR.take_request u (SWR.inflight s)) as [[n rest]|]; [|done].
    rewrite (fetcher_failure u o e _ He) in Hsettle. injection Hsettle as <-.
    unfold SWR.commit. by destruct (SWR.cached _).
  - unfold SWR.step in Hstep. apply fmap_Some in Hstep as (s1 & Hsettle & ->).
    rewrite shown_commit. unfold SWR.settle in Hsettle.
    destruct (SWR.take_request u (SWR.inflight s)) as [[n rest]|]; [|done].
    rewrite (fetcher_failure u o e _ He) in Hsettle. by injection Hsettle as <-.
Qed.

Lemma failed_request_notifies_once_witness :
  SWR.toasts (state_after [SWR.Render (Some url_page1); SWR.Settle url_page1 (ok [bitcoin]);
                           SWR.Render (Some url_page2); SWR.Settle url_page2 NetworkError])
    = [error_toast] ∧
  shown (state_after [SWR.Render (Some url_page1); SWR.Settle url_page1 (ok [bitcoin]);
                      SWR.Render (Some url_page2); SWR.Settle url_page2 NetworkError])
    = [bitcoin].
Proof.
  destruct (failed_request_notifies_once url_page2 NetworkError
              (state_after [SWR.Render (Some url_page1); SWR.Settle url_page1 (ok [bitcoin]);
                            SWR.Render (Some url_page2)])
              (state_after [SWR.Render (Some url_page1); SWR.Settle url_page1 (ok [bitcoin]);
                            SWR.Render (Some url_page2); SWR.Settle url_page2 NetworkError])
              (or_introl eq_refl) ltac:(vm_compute; reflexivity))
    as (e & _ & _ & _ & Htoasts & Hshown).
  split.
  - rewrite Htoasts. vm_compute. reflexivity.
  - rewrite Hshown. vm_compute. reflexivity.
Defined.

Lemma run_single cfg e s : SWR.run cfg [e] s = SWR.step cfg e s.
Proof. unfold SWR.run. by destruct (SWR.step cfg e s). Qed.

(** ** Before the first result *)


Lemma blank_shown s : blank s → shown s = [].
Proof.
  intros [Hc Hl]. unfold shown, SWR.returnedData, SWR.cached. rewrite Hc, Hl.
  destruct (SWR.key s); simpl; by rewrite ?lookup_empty.
Qed.

Lemma blank_commit s : blank s → SWR.commit s = s.
Proof.
  intros [Hc Hl]. unfold SWR.commit, SWR.cached. rewrite Hc.
  destruct (SWR.key s); by rewrite ?lookup_empty.
Qed.

Lemma revalidate_data u n s :
  SWR.cache (SWR.revalidate u n s) = SWR.cache s ∧
  SWR.laggy (SWR.revalidate u n s) = SWR.laggy s ∧
  SWR.key (SWR.revalidate u n s) = SWR.key s ∧
  SWR.toasts (SWR.revalidate u n s) = SWR.toasts s.
Proof. unfold SWR.revalidate. by case_decide. Qed.

Lemma render_data k s :
  SWR.cache (SWR.render k s) = SWR.cache s ∧
  SWR.laggy (SWR.render k s) = SWR.laggy s ∧
  SWR.key (SWR.render k s) = k.
Proof.
  unfold SWR.render. case_decide as Hk; [by rewrite Hk|].
  destruct k as [u|]; [|done].
  by destruct (revalidate_data u 0 (SWR.with_key (Some u) s)) as (-> & -> & -> & _).
Qed.

Lemma settle_failure_data cfg u o e s s' :
  axios_get o = Throw e → SWR.settle cfg u o s = Some s' →
  SWR.cache s' = SWR.cache s ∧ SWR.laggy s' = SWR.laggy s ∧ SWR.key s' = SWR.key s ∧
  SWR.calls s' = SWR.calls s.
Proof.
  intros He. unfold SWR.settle.
  destruct (SWR.take_request u (SWR.inflight s)) as [[n rest]|]; [|done].
  rewrite (fetcher_failure u o e _ He). by intros [= <-].
Qed.

Lemma settle_success_data cfg u o r s s' :
  axios_get o = Normal r → SWR.settle cfg u o s = Some s' →
  SWR.cache s' = <[u := data r]> (SWR.cache s) ∧ SWR.laggy s' = SWR.laggy s ∧
  SWR.key s' = SWR.key s ∧ SWR.calls s' = SWR.calls s.
Proof.
  intros He. unfold SWR.settle.
  destruct (SWR.take_request u (SWR.inflight s)) as [[n rest]|]; [|done].
  rewrite (fetcher_success u o r _ He). by intros [= <-].
Qed.

Lemma retry_timer_data u n s s' :
  SWR.retry_timer u n s = Some s' →
  SWR.cache s' = SWR.cache s ∧ SWR.laggy s' = SWR.laggy s ∧ SWR.key s' = SWR.key s.
Proof.
  unfold SWR.retry_timer. destruct (SWR.take_timer _ _) as [rest|]; [|done].
  intros [= <-]. case_bool_decide; [|done].
  by destruct (revalidate_data u n
    {| SWR.cache := SWR.cache s; SWR.FETCH := SWR.FETCH s; SWR.inflight := SWR.inflight s;
       SWR.timers := rest; SWR.key := SWR.key s; SWR.laggy := SWR.laggy s;
       SWR.calls := SWR.calls s; SWR.toasts := SWR.toasts s |}) as (-> & -> & -> & _).
Qed.

Lemma dedupe_timer_data u s s' :
  SWR.dedupe_timer u s = Some s' →
  SWR.cache s' = SWR.cache s ∧ SWR.laggy s' = SWR.laggy s ∧ SWR.key s' = SWR.key s ∧
  SWR.calls s' = SWR.calls s.
Proof.
  unfold SWR.dedupe_timer. destruct (_ && _); [|done]. by intros [= <-].
Qed.

Lemma focus_data cfg s :
  SWR.cache (SWR.focus cfg s) = SWR.cache s ∧ SWR.laggy (SWR.focus cfg s) = SWR.laggy s ∧
  SWR.key (SWR.focus cfg s) = SWR.key s.
Proof.
  unfold SWR.focus. destruct (revalidateOnFocus cfg); [|done].
  destruct (SWR.key s) as [u|] eqn:Hk; [|done].
  destruct (revalidate_data u 0 s) as (-> & -> & -> & _). by rewrite Hk.
Qed.

Lemma last_success_Some evs x : is_Some (SWR.last_success evs (Some x)).
Proof.
  revert x. induction evs as [|e evs IH]; intros x; simpl; [by eexists|].
  destruct e; try apply IH. destruct (axios_get o); apply IH.
Qed.

Lemma blank_run cfg evs s s' :
  blank s → SWR.run cfg evs s = Some s' → SWR.last_success evs None = None → blank s'.
Proof.
  revert s. induction evs as [|e evs IH]; intros s Hb Hrun Hlast; simpl in Hrun.
  - by injection Hrun as <-.
  - destruct (SWR.step cfg e s) as [s1|] eqn:Hstep; [|done].
    unfold SWR.step in Hstep. apply fmap_Some in Hstep as (s0 & Hop & ->).
    assert (blank s0 ∧ SWR.last_success evs None = None) as [Hb0 Hlast'].
    { destruct Hb as [Hc Hl]. unfold blank. destruct e; simpl in Hlast.
      - injection Hop as <-. destruct (render_data k s) as (-> & -> & _). done.
      - destruct (axios_get o) as [r|err] eqn:Ho.
        + destruct (last_success_Some evs (u, data r)) as [x Hx]. congruence.
        + destruct (settle_failure_data _ _ _ _ _ _ Ho Hop) as (-> & -> & _). done.
      - destruct (retry_timer_data _ _ _ _ Hop) as (-> & -> & _). done.
      - destruct (dedupe_timer_data _ _ _ Hop) as (-> & -> & _). done.
      - injection Hop as <-. destruct (focus_data cfg s) as (-> & -> & _). done. }
    rewrite (blank_commit _ Hb0) in Hrun. by eapply IH.
Qed.

(** C9. As long as no request has resolved, the hook returns the empty
    list; and when the request of the current key resolves with an empty
    body, the list returned is empty and the table renders no row, without an
    error. *)
Theorem empty_coin_list (evs : list SWR.Event) (s : SWR.State) (p : GetCoinsHookParams.t)
    (cur : Currency) (U : string → string) (screens : Screens) :
  SWR.run swr_options evs SWR.init = Some s →
  coins_of None = [] ∧
  coins_of (Some []) = [] ∧
  Table screens (columns U cur) [] = Normal [] ∧
  (SWR.last_success evs None = None →
   shown s = [] ∧ coins (fst (useGetCoins p s)) = []) ∧
  (∀ u o r s', SWR.key s = Some u → axios_get o = Normal r → data r = [] →
     SWR.step swr_options (SWR.Settle u o) s = Some s' →
     shown s' = [] ∧ Table screens (columns U cur) (shown s') = Normal []).
Proof.
  intros Hrun. split_and!; [done..| |].
  - intros Hlast.
    assert (blank s) as Hb by (eapply blank_run; [|done..]; done).
    split; [by apply blank_shown|].
    destruct (useGetCoins_step p s) as [Hstep ->].
    apply blank_shown.
    apply (blank_run swr_options [SWR.Render (swr_key p)] s); [done| |done].
    by rewrite run_single.
  - intros u o r s' Hkey Ho Hdata Hstep.
    assert (shown s' = []) as ->; [|done].
    unfold SWR.step in Hstep. apply fmap_Some in Hstep as (s0 & Hop & ->).
    rewrite shown_commit.
    destruct (settle_success_data _ _ _ _ _ _ Ho Hop) as (Hc & _ & Hk & _).
    unfold shown, SWR.returnedData, SWR.cached. rewrite Hk, Hkey, Hc, lookup_insert_eq.
    done.
Qed.

Lemma empty_coin_list_witness :
  shown (state_after [SWR.Render (Some url_page1)]) = [] ∧
  Table (λ _, true) (columns toUpperCase usd)
        (shown (state_after [SWR.Render (Some url_page1); SWR.Settle url_page1 (ok [])]))
    = Normal [].
Proof.
  destruct (empty_coin_list [SWR.Render (Some url_page1)]
              (state_after [SWR.Render (Some url_page1)])
              (params usd market_cap_desc 10 1) usd toUpperCase (λ _, true)
              ltac:(vm_compute; reflexivity))
    as (_ & _ & _ & Hnone & Hempty).
  split.
  - exact (proj1 (Hnone eq_refl)).
  - exact (proj2 (Hempty url_page1 (ok []) {| status := 200; data := [] |}
                    (state_after [SWR.Render (Some url_page1); SWR.Settle url_page1 (ok [])])
                    ltac:(vm_compute; reflexivity) eq_refl eq_refl
                    ltac:(vm_compute; reflexivity))).
Defined.

(** ** Previous data while a new key loads *)










(** ** Counting network calls *)


















(** A failed request is sent again by its retry timer. *)
Example failed_request_is_retried :
  SWR.calls (state_after [SWR.Render (Some url_page1); SWR.Settle url_page1 NetworkError;
                          SWR.RetryTimer url_page1 1]) = [url_page1; url_page1].
Proof. vm_compute. reflexivity. Qed.

(** * Further properties of the component *)

(** ** The query string separates its parameters *)

Lemma append_inj_l (p a b : string) : p +:+ a = p +:+ b → a = b.
Proof.
  induction p as [|c p IH]; [done|].
  rewrite !append_cons. intros [= H]. by apply IH.
Qed.

(** Two strings without [&], each followed by [&] and a rest, are equal
    only when the strings and the rests are. *)
Lemma split_at_amp (a a' r r' : string) :
  string_all not_amp a = true → string_all not_amp a' = true →
  a +:+ String "&" r = a' +:+ String "&" r' → a = a' ∧ r = r'.
Proof.
  revert a'. induction a as [|c a IH]; intros [|c' a'] Ha Ha' H.
  - injection H as ->. done.
  - rewrite append_cons in H. injection H as <- _.
    simpl in Ha'. done.
  - rewrite append_cons in H. injection H as -> _.
    simpl in Ha. done.
  - rewrite !append_cons in H. injection H as -> H.
    simpl in Ha, Ha'.
    apply andb_true_iff in Ha as [_ Ha]. apply andb_true_iff in Ha' as [_ Ha'].
    destruct (IH a' Ha Ha' H) as [-> ->]. done.
Qed.

Lemma not_amp_zeros (n : nat) : string_all not_amp (zeros n) = true.
Proof. induction n; [done|]. simpl. by rewrite IHn. Qed.

Lemma not_amp_uint (u : Decimal.uint) : string_all not_amp (NilEmpty.string_of_uint u) = true.
Proof. induction u; simpl; done. Qed.

Lemma not_amp_decimal (z : Z) : string_all not_amp (decimal_of_Z z) = true.
Proof.
  unfold decimal_of_Z, NilZero.string_of_uint.
  destruct (N.to_uint (Z.to_N z)) eqn:Hu; try done; rewrite <- Hu; apply not_amp_uint.
Qed.

(** No number prints with an [&] in it. *)
Lemma not_amp_number (x : number) : string_all not_amp (Number_toString x) = true.
Proof.
  destruct x as [| neg | neg | neg s n]; simpl; try done; [by destruct neg|].
  rewrite string_all_app. apply andb_true_iff; split; [by destruct neg|].
  pose proof (not_amp_uint (Pos.to_uint s)) as Hd. fold (digits s) in Hd.
  pose proof (not_amp_decimal (Z.abs (n - 1))) as He.
  repeat case_match;
    rewrite ?string_all_app, ?Hd, ?He, ?not_amp_zeros; simpl;
    rewrite ?string_all_substring, ?Hd, ?He by done; simpl;
    rewrite ?string_all_app, ?He; done.
Qed.

Lemma split_at_sep (a a' q r r' : string) :
  string_all not_amp a = true → string_all not_amp a' = true →
  a +:+ String "&" q +:+ r = a' +:+ String "&" q +:+ r' → a = a' ∧ r = r'.
Proof.
  intros Ha Ha' H. rewrite !append_cons in H.
  destruct (split_at_amp _ _ _ _ Ha Ha' H) as [-> Hr].
  split; [done|]. by apply append_inj_l in Hr.
Qed.

Lemma Currency_str_inj (c c' : Currency) : Currency_str c = Currency_str c' → c = c'.
Proof. by destruct c, c'. Qed.

Lemma Order_str_inj (o o' : Order) : Order_str o = Order_str o' → o = o'.
Proof. by destruct o, o'. Qed.

(** Two request URLs are equal exactly when they are built from the same
    currency, order and sparkline flag and from numbers that print alike. *)
Lemma apiUrl_inj (c c' : Currency) (o o' : Order) (pp pp' pg pg' : number) (sp sp' : bool) :
  apiUrl c o pp pg sp = apiUrl c' o' pp' pg' sp' ↔
  c = c' ∧ o = o' ∧ Number_toString pp = Number_toString pp' ∧
  Number_toString pg = Number_toString pg' ∧ sp = sp'.
Proof.
  rewrite !apiUrl_text. split.
  - intros H.
    pose proof (not_amp_number pp). pose proof (not_amp_number pp').
    pose proof (not_amp_number pg). pose proof (not_amp_number pg').
    apply append_inj_l, append_inj_l in H.
    apply split_at_sep in H as [Hc H]; [|by destruct c|by destruct c'].
    apply split_at_sep in H as [Ho H]; [|by destruct o|by destruct o'].
    apply split_at_sep in H as [Hpp H]; [|done..].
    apply split_at_sep in H as [Hpg H]; [|done..].
    split_and!; [by apply Currency_str_inj | by apply Order_str_inj | done | done |].
    by destruct sp, sp'.
  - intros (-> & -> & -> & -> & ->). done.
Qed.

(** X4. The request key tells enabled parameter tuples apart: two enabled
    tuples get the same key exactly when they agree on currency, order and
    the effective sparkline flag and their page size and page print alike. *)
Theorem request_key_separates_tuples (p p' : GetCoinsHookParams.t) :
  or_default true (GetCoinsHookParams.enabled p) = true →
  or_default true (GetCoinsHookParams.enabled p') = true →
  swr_key p = swr_key p' ↔
  GetCoinsHookParams.currency p = GetCoinsHookParams.currency p' ∧
  GetCoinsHookParams.order p = GetCoinsHookParams.order p' ∧
  Number_toString (GetCoinsHookParams.perPage p) = Number_toString (GetCoinsHookParams.perPage p') ∧
  Number_toString (GetCoinsHookParams.page p) = Number_toString (GetCoinsHookParams.page p') ∧
  or_default false (GetCoinsHookParams.sparkline p) =
    or_default false (GetCoinsHookParams.sparkline p').
Proof.
  intros He He'. unfold swr_key. rewrite He, He'.
  rewrite <- apiUrl_inj. split; [intros H; by apply (inj Some) in H | intros H; by f_equal].
Qed.

Lemma request_key_separates_tuples_witness :
  swr_key (params usd market_cap_desc 10 1) ≠ swr_key (params usd market_cap_desc 10 2) ∧
  swr_key (params usd market_cap_desc 10 1) =
    swr_key {| GetCoinsHookParams.currency := usd; GetCoinsHookParams.order := market_cap_desc;
               GetCoinsHookParams.perPage := of_Z 10; GetCoinsHookParams.page := of_Z 1;
               GetCoinsHookParams.sparkline := Some false;
               GetCoinsHookParams.enabled := Some true |}.
Proof.
  split.
  - intros H.
    apply (request_key_separates_tuples (params usd market_cap_desc 10 1)
             (params usd market_cap_desc 10 2) eq_refl eq_refl) in H
      as (_ & _ & _ & Hpage & _).
    vm_compute in Hpage. discriminate.
  - apply (request_key_separates_tuples (params usd market_cap_desc 10 1)
             {| GetCoinsHookParams.currency := usd;
                GetCoinsHookParams.order := market_cap_desc;
                GetCoinsHookParams.perPage := of_Z 10; GetCoinsHookParams.page := of_Z 1;
                GetCoinsHookParams.sparkline := Some false;
                GetCoinsHookParams.enabled := Some true |} eq_refl eq_refl).
    split_and!; reflexivity.
Defined.

(** ** The query state under any sequence of mutations *)

(** X5. The four handlers never interfere: after any list of mutations
    each field holds the value last written to it by its own handler, or its
    old value when no mutation wrote it. *)
Theorem mutations_field_wise (st : AppState) (ms : list Mutation) :
  foldl mutate st ms =
  {| page := last_page ms (page st);
     pageSize := last_pageSize ms (pageSize st);
     currency := last_currency ms (currency st);
     order := last_order ms (order st) |}.
Proof.
  revert st. induction ms as [|m ms IH]; intros st; [by destruct st|].
  simpl. rewrite IH. unfold last_page, last_pageSize, last_currency, last_order.
  by destruct m.
Qed.

(** ** The request key under a mutation *)

Lemma hook_key (st : AppState) :
  swr_key (hook_params st) = Some (apiUrl (currency st) (order st) (pageSize st) (page st) false).
Proof. reflexivity. Qed.

(** X6. Whatever the query state and the mutation, [App] calls the hook
    with a key that is not null and asks for sparkline=false; and the key
    after the mutation equals the key before exactly when the mutation writes
    what its field shows already. *)
Theorem key_follows_mutation (st : AppState) (m : Mutation) :
  (∃ url, swr_key (hook_params (mutate st m)) = Some url ∧
          url = apiUrl (currency (mutate st m)) (order (mutate st m))
                       (pageSize (mutate st m)) (page (mutate st m)) false) ∧
  (swr_key (hook_params (mutate st m)) = swr_key (hook_params st) ↔ rewrites_same st m).
Proof.
  split; [by eexists|].
  rewrite !hook_key. split.
  - intros H. apply (inj Some) in H. apply apiUrl_inj in H as (Hc & Ho & Hs & Hp & _).
    by destruct m.
  - intros H. f_equal. apply apiUrl_inj.
    destruct m; simpl in *; split_and!; done.
Qed.

(** ** The table *)

Lemma visible_columns_lg U (screens : Screens) (cur : Currency) :
  visible_columns screens (columns U cur) =
  if screens "lg" then columns U cur
  else List.filter (λ col, bool_decide (responsive col = None)) (columns U cur).
Proof.
  unfold visible_columns, columns, visible. simpl.
  by destruct (screens "lg").
Qed.

(** The row of the columns shown is made from the Price cell alone: it has
    six cells when the viewport matches [lg] and four when it does not. *)
Lemma render_row_visible U (screens : Screens) (cur : Currency) (record : Coin) :
  ∃ cells : Cell → list Cell,
    (∀ c, length (cells c) = if screens "lg" then 6 else 4) ∧
    render_row (visible_columns screens (columns U cur)) record =
    bind (render_price U cur (current_price record)) (λ c, Normal (cells c)).
Proof.
  rewrite visible_columns_lg. destruct (screens "lg").
  - exists (row_cells U record). split; [done|].
    unfold render_row, columns, mapM, render_cell. simpl.
    change (get_field "current_price" record) with (current_price record).
    by destruct (render_price U cur (current_price record)).
  - exists (λ c, [ImageElement (image record) "coin" 32; Plain (VStr (name record)); c;
                  Plain (circulating_supply record)]).
    split; [done|].
    unfold render_row, columns, mapM, render_cell. simpl.
    change (get_field "current_price" record) with (current_price record).
    by destruct (render_price U cur (current_price record)).
Qed.

(** X3. The Price renderer, on every value and whatever the Unicode case
    mapping [U] is: for [null] and [undefined] it throws a TypeError; for
    every other value it shows [value.toString().toUpperCase()], a space and
    the currency code, and when the text of the value is ASCII (as for every
    number and boolean) the upper-cased text is the text with [a]..[z] turned
    into [A]..[Z], with no lower-case letter left. *)
Theorem render_price_cases (U : string → string) (cur : Currency) (v : val) :
  case_mapping U →
  match render_price U cur v with
  | Normal c =>
      is_nullish v = false ∧
      c = Plain (VStr (U (ToString v) +:+ " " +:+ Currency_str cur)) ∧
      (ascii_only (ToString v) = true →
       U (ToString v) = toUpperCase (ToString v) ∧ no_lower (U (ToString v)) = true)
  | Throw e => is_nullish v = true ∧ ∃ msg, e = TypeError msg
  end.
Proof.
  intros HU. destruct (is_nullish v) eqn:Hv.
  - destruct (render_price_absent U cur v Hv) as [msg ->]. split; [done | by eexists].
  - rewrite (render_price_present U cur v Hv). split_and!; [done..|].
    intros Hascii. rewrite (HU _ Hascii). split; [done|]. apply toUpperCase_no_lower.
Qed.

Lemma render_price_cases_witness :
  render_price toUpperCase eur (VStr "1.5e-7") = Normal (Plain (VStr "1.5E-7 eur")).
Proof.
  pose proof (render_price_cases toUpperCase eur (VStr "1.5e-7") ascii_case_mapping) as H.
  destruct (render_price toUpperCase eur (VStr "1.5e-7")) as [c|e].
  - destruct H as (_ & -> & _). reflexivity.
  - destruct H as [H _]. discriminate H.
Defined.

Lemma mapM_ext {A B} (f g : A → completion B) (l : list A) :
  Forall (λ a, f a = g a) l → mapM f l = mapM g l.
Proof.
  induction 1 as [|a l Ha _ IH]; [done|]. simpl. by rewrite Ha, IH.
Qed.

Lemma Forall_List_filter {A} (P : A → Prop) (h : A → bool) (l : list A) :
  Forall P l → Forall P (List.filter h l).
Proof.
  induction 1 as [|a l Ha _ IH]; [constructor|]. simpl.
  destruct (h a); [by constructor | done].
Qed.

(** X2. A row shows six fields and nothing else: two records that agree on
    image, name, symbol, current_price, market_cap and circulating_supply
    render the same row (or both fail), whatever their other twenty fields
    hold, with all six columns and with the columns any viewport shows. *)
Theorem row_reads_six_fields (U : string → string) (screens : Screens) (cur : Currency)
    (r r' : Coin) :
  image r = image r' → name r = name r' → symbol r = symbol r' →
  current_price r = current_price r' → market_cap r = market_cap r' →
  circulating_supply r = circulating_supply r' →
  render_row (columns U cur) r = render_row (columns U cur) r' ∧
  render_row (visible_columns screens (columns U cur)) r =
    render_row (visible_columns screens (columns U cur)) r'.
Proof.
  intros Hi Hn Hs Hp Hm Hc.
  assert (Forall (λ col, render_cell r col = render_cell r' col) (columns U cur)) as Hall.
  { unfold columns, render_cell. repeat constructor; simpl.
    - change (get_field "image" r) with (image r).
      change (get_field "image" r') with (image r'). by rewrite Hi.
    - change (get_field "name" r) with (VStr (name r)).
      change (get_field "name" r') with (VStr (name r')). by rewrite Hn.
    - change (get_field "symbol" r) with (VStr (symbol r)).
      change (get_field "symbol" r') with (VStr (symbol r')). by rewrite Hs.
    - change (get_field "current_price" r) with (current_price r).
      change (get_field "current_price" r') with (current_price r'). by rewrite Hp.
    - change (get_field "market_cap" r) with (market_cap r).
      change (get_field "market_cap" r') with (market_cap r'). by rewrite Hm.
    - change (get_field "circulating_supply" r) with (circulating_supply r).
      change (get_field "circulating_supply" r') with (circulating_supply r'). by rewrite Hc. }
  split; unfold render_row; apply mapM_ext; [done|].
  by apply Forall_List_filter.
Qed.

Lemma row_reads_six_fields_witness :
  render_row (columns toUpperCase eur) bitcoin =
  render_row (columns toUpperCase eur)
    {| id := "other"; symbol := "btc"; name := "Bitcoin"; image := VNull;
       current_price := VNum (Finite false 420005 5);
       market_cap := VNull; market_cap_rank := VNum (of_Z 1);
       fully_diluted_valuation := VNum (of_Z 7); total_volume := VNum (of_Z 9);
       high_24h := VStr "x"; low_24h := VUndefined; price_change_24h := VBool true;
       price_change_percentage_24h := VNull; market_cap_change_24h := VNull;
       market_cap_change_percentage_24h := VNull; circulating_supply := VNull;
       total_supply := VNum (of_Z 21); max_supply := VNum (of_Z 21); ath := VNull;
       ath_change_percentage := VNull; ath_date := VStr "2021"; atl := VNull;
       atl_change_percentage := VNull; atl_date := VNull; roi := VNull;
       last_updated := VStr "now" |}.
Proof.
  apply (row_reads_six_fields toUpperCase (λ _, true) eur bitcoin); reflexivity.
Defined.

(** X1. On every viewport the table either renders one row for every
    record, in order, or throws; a row has six cells when the viewport
    matches [lg] and four when it does not.  The table throws exactly when
    some record has no price, and then with the TypeError of the first such
    record, so one record without a price takes the whole table down. *)
Theorem table_all_or_nothing (U : string → string) (screens : Screens) (cur : Currency)
    (l : list Coin) :
  match Table screens (columns U cur) l with
  | Normal rows =>
      first_unpriced l = None ∧
      length rows = length l ∧
      Forall (λ row, length row = if screens "lg" then 6 else 4) rows ∧
      Forall2 (λ r row, render_row (visible_columns screens (columns U cur)) r = Normal row)
              l rows
  | Throw e =>
      ∃ r, first_unpriced l = Some r ∧
           render_row (visible_columns screens (columns U cur)) r = Throw e
  end.
Proof.
  unfold Table, first_unpriced, price_present.
  induction l as [|r l IH]; [by split_and!|].
  cbn [mapM List.find]. rewrite negb_involutive.
  destruct (render_row_visible U screens cur r) as (cells & Hlen & Hrow).
  destruct (is_nullish (current_price r)) eqn:Hp.
  - destruct (render_price_absent U cur _ Hp) as [msg Hmsg].
    rewrite Hmsg in Hrow. cbn [bind] in Hrow. rewrite Hrow. cbn [bind]. by exists r.
  - rewrite (render_price_present U cur _ Hp) in Hrow. cbn [bind] in Hrow.
    rewrite Hrow. cbn [bind].
    destruct (mapM (render_row (visible_columns screens (columns U cur))) l) as [rows|e];
      cbn [bind].
    + destruct IH as (Hnone & Hlen' & Hsix & Hrows).
      split_and!; [done | simpl; by rewrite Hlen' | |].
      * constructor; [apply Hlen | done].
      * constructor; [exact Hrow | done].
    + done.
Qed.

(** ** The fetcher over several requests *)

Lemma fetcher_resume (u : string) (o : Outcome) (ts : list Toast) :
  resume (fetcher u) o ts =
  (fetched o, if is_normal (axios_get o) then ts else ts ++ [error_toast]).
Proof.
  unfold fetched. destruct (axios_get o) as [r|e] eqn:Ho.
  - by rewrite (fetcher_success u o r ts Ho).
  - by rewrite (fetcher_failure u o e ts Ho).
Qed.

(** X7. When requests settle one after the other, the fetcher hands each
    caller the body of its own answer or the error of its own failure,
    whatever the URL and whatever happened to the others; the notifications
    already there are kept, and one "Error fetching data" is added for each
    failed request and none for the others. *)
Theorem notifications_accumulate (rs : list (string * Outcome)) (ts : list Toast) :
  fst (settle_all rs ts) = map (λ r, fetched (snd r)) rs ∧
  snd (settle_all rs ts) = ts ++ replicate (failures rs) error_toast.
Proof.
  revert ts. induction rs as [|[u o] rs IH]; intros ts.
  - simpl. by rewrite app_nil_r.
  - cbn [settle_all]. rewrite fetcher_resume.
    destruct (settle_all rs _) as [cs ts2] eqn:Hrest.
    specialize (IH (if is_normal (axios_get o) then ts else ts ++ [error_toast])).
    rewrite Hrest in IH. simpl in IH. destruct IH as [-> ->].
    unfold failures. simpl. split; [done|].
    destruct (is_normal (axios_get o)); simpl; [done|].
    by rewrite <- app_assoc.
Qed.

(** ** A change of currency while the old list is on screen *)



